(** * All Goblins Have Names: resolution of roll-table references

    A shallow embedding of [scripts/index.js].  The script reacts to the
    creation of a token, looks for references to roll tables in the token's
    name and in its actor's biography, rolls the referenced tables and writes
    the outcome back.

    JavaScript values are modelled by the inductive type [value]; strings are
    [String.string] (a sequence of code units); the registries of the host
    ([game.packs], [game.actors]) are finite maps with string keys.  Thrown
    errors and the observable calls to the host (notifications, console
    warnings, document updates) are threaded through a writer/error monad
    [M]: a computation yields the list of calls it made, in order, and either
    the thrown error or the returned value.  Every [await] of the script is a
    sequencing point of that monad. *)

From Stdlib Require Import ZArith Ascii String List Bool Lia.
From stdpp Require Import base option strings gmap.

Import ListNotations.
Open Scope string_scope.
Open Scope list_scope.

(** ** Strings, as the script uses them *)

Module JsString.

(** [s.indexOf(c)] for a needle of one code unit: the first position that
    holds [c], or [-1]. *)
Fixpoint indexOf_from (c : ascii) (s : string) (i : Z) : Z :=
  match s with
  | EmptyString => (-1)%Z
  | String a rest =>
      if Ascii.eqb a c then i else indexOf_from c rest (i + 1)%Z
  end.

Definition indexOf (s : string) (c : ascii) : Z := indexOf_from c s 0%Z.

(** [s.substring(a, b)]: both indices are clamped to [0 .. s.length] and
    swapped when the first exceeds the second. *)
Definition clamp (len z : Z) : Z := Z.max 0 (Z.min z len).

Definition substring (s : string) (a b : Z) : string :=
  let len := Z.of_nat (String.length s) in
  let a' := clamp len a in
  let b' := clamp len b in
  let lo := Z.min a' b' in
  let hi := Z.max a' b' in
  String.substring (Z.to_nat lo) (Z.to_nat (hi - lo)) s.

(** [s.split(c)] for a separator of one code unit; the empty string splits
    into one empty part. *)
Fixpoint split (sep : ascii) (s : string) : list string :=
  match s with
  | EmptyString => [EmptyString]
  | String a rest =>
      if Ascii.eqb a sep then EmptyString :: split sep rest
      else match split sep rest with
           | [] => [String a EmptyString]
           | part :: parts => String a part :: parts
           end
  end.

(** White space removed by [trim], among the code units below 128: tab,
    line feed, vertical tab, form feed, carriage return and space. *)
Definition is_space (a : ascii) : bool :=
  let n := nat_of_ascii a in
  (Nat.leb 9 n && Nat.leb n 13) || Nat.eqb n 32.

Fixpoint trimStart (s : string) : string :=
  match s with
  | String a rest => if is_space a then trimStart rest else s
  | EmptyString => EmptyString
  end.

Fixpoint trimEnd (s : string) : string :=
  match s with
  | EmptyString => EmptyString
  | String a rest =>
      match trimEnd rest with
      | EmptyString => if is_space a then EmptyString else String a EmptyString
      | rest' => String a rest'
      end
  end.

Definition trim (s : string) : string := trimEnd (trimStart s).

Fixpoint startsWith (prefix s : string) : bool :=
  match prefix, s with
  | EmptyString, _ => true
  | String a p, String b r => Ascii.eqb a b && startsWith p r
  | String _ _, EmptyString => false
  end.

(** The code unit [c] occurs nowhere in [s]. *)
Fixpoint lacks (c : ascii) (s : string) : bool :=
  match s with
  | EmptyString => true
  | String a rest => negb (Ascii.eqb a c) && lacks c rest
  end.

End JsString.

(** ** Values *)

#[local] Set Warnings "-register-all".

Inductive value : Type :=
| VUndefined
| VNull
| VBool (b : bool)
| VNum (n : Z)
| VStr (s : string)
| VArr (items : list value)
| VObj (fields : list (string * value)).

(** ToBoolean. *)
Definition truthy (v : value) : bool :=
  match v with
  | VUndefined | VNull => false
  | VBool b => b
  | VNum n => negb (Z.eqb n 0)
  | VStr s => negb (String.eqb s "")
  | VArr _ | VObj _ => true
  end.

Definition nullish (v : value) : bool :=
  match v with
  | VUndefined | VNull => true
  | _ => false
  end.

Fixpoint assoc (k : string) (fields : list (string * value)) : value :=
  match fields with
  | [] => VUndefined
  | (k', v) :: rest => if String.eqb k' k then v else assoc k rest
  end.

(** The property [k] of a value that is neither [undefined] nor [null]:
    own fields of an object, [length] of an array or a string, and
    [undefined] for anything else. *)
Definition prop (v : value) (k : string) : value :=
  match v with
  | VObj fields => assoc k fields
  | VArr items =>
      if String.eqb k "length" then VNum (Z.of_nat (List.length items))
      else VUndefined
  | VStr s =>
      if String.eqb k "length" then VNum (Z.of_nat (String.length s))
      else VUndefined
  | _ => VUndefined
  end.

(** Following a chain of property names from a value, [undefined] as soon as
    the chain leaves the objects. *)
Fixpoint read_path (v : value) (path : list string) : value :=
  match path with
  | [] => v
  | k :: rest => if nullish v then VUndefined else read_path (prop v k) rest
  end.

Definition of_option (o : option string) : value :=
  match o with
  | Some s => VStr s
  | None => VUndefined
  end.

(** ** Errors and effects *)

Inductive exn : Type :=
| Error (message : string)
| TypeError (message : string).

Definition message (e : exn) : string :=
  match e with
  | Error m | TypeError m => m
  end.

Inductive event : Type :=
| NotificationError (msg : string)         (* ui.notifications.error(msg) *)
| ConsoleWarn (msg : string)               (* console.warn(msg) *)
| TokenNameAssign (s : string)             (* tokenDocument.name = s *)
| TokenUpdate (data : list (string * value))   (* tokenDocument.update(data) *)
| ActorUpdate (data : list (string * value)).  (* tokenDocument.actor.update(data) *)

Definition outcome (A : Type) : Type := (exn + A)%type.

Definition M (A : Type) : Type := (list event * outcome A)%type.

Definition ret {A} (a : A) : M A := ([], inr a).

Definition throw {A} (e : exn) : M A := ([], inl e).

Definition emit (e : event) : M unit := ([e], inr tt).

Definition bind {A B} (m : M A) (f : A -> M B) : M B :=
  match m with
  | (log, inl e) => (log, inl e)
  | (log, inr a) => let '(log', r) := f a in (log ++ log', r)
  end.

(** [try { m } catch (e) { handler e }] *)
Definition try_catch {A} (m : M A) (handler : exn -> M A) : M A :=
  match m with
  | (log, inl e) => let '(log', r) := handler e in (log ++ log', r)
  | (log, inr a) => (log, inr a)
  end.

Definition lift {A} (o : outcome A) : M A := ([], o).

Declare Scope js_scope.
Delimit Scope js_scope with js.
Notation "x <- m ;; k" := (bind m (fun x => k))
  (at level 100, m at next level, right associativity) : js_scope.
Notation "m ;;; k" := (bind m (fun _ => k))
  (at level 100, right associativity) : js_scope.
Open Scope js_scope.

(** [v.k]: reading a property of [undefined] or [null] throws. *)
Definition get_prop (v : value) (k : string) : M value :=
  if nullish v
  then throw (TypeError ("Cannot read properties of undefined (reading '" +:+ k +:+ "')"))
  else ret (prop v k).

(** ** The host's registries and the records of the script *)

(** What the script receives as [tokenData] / [tokenDocument]. *)
Record TokenData : Type := mkToken {
  name : string;
  actorId : value;
  actorLink : value;
  document : value;
  actor : value
}.

(** The object returned by [mineForTableStrings]; a field left
    [undefined] is [None]. *)
Record Mined : Type := mkMined {
  nameTableStr : option string;
  bioDataPath : option string;
  bioTableStr : option string
}.

(** The object built by [getNewRolledValues]: [bioDataPath] is always
    there, [name] and [bio] only once they have been assigned. *)
Record Rolled : Type := mkRolled {
  rolled_bioDataPath : option string;
  rolled_name : option value;
  rolled_bio : option value
}.

Definition field (o : option value) : value := default VUndefined o.

(** [if (s)] for a variable holding a string or [undefined]. *)
Definition present (o : option string) : bool := truthy (of_option o).

(** ToPropertyKey of a variable holding a string or [undefined]. *)
Definition to_key (o : option string) : string := default "undefined" o.

(** What the script takes from outside: the table documents of the host,
    the three imports of [./table-utils.js] and the rendering of markup. *)
Class Host : Type := mkHost {
  (** Table documents are opaque but for their identifier. *)
  Doc : Type;
  doc_id : Doc -> string;
  (** The imports of [./table-utils.js]. *)
  isWorldTable : string -> bool;
  isCompendiumTable : string -> bool;
  rollTable : Doc -> outcome value;
  (** The text a scratch [div] renders once its [innerHTML] is assigned a
      value. *)
  innerText : value -> string
}.

Section Script.

Context {host : Host}.

(** The part of the global [game] the script reads. *)
Record Game : Type := mkGame {
  tables : list Doc;                       (* game.tables.contents *)
  packs : gmap string (gmap string Doc);   (* game.packs, each with getDocument *)
  actors : gmap string value;              (* game.actors *)
  syncActorName : value                    (* game.settings.get(.., "syncActorName") *)
}.

Definition actors_get (g : Game) (id : value) : value :=
  match id with
  | VStr s => default VUndefined (actors g !! s)
  | _ => VUndefined
  end.

(** *** getRollTableResult *)

Definition table_id (displayName : string) : string :=
  JsString.substring displayName 16 (JsString.indexOf displayName "]").

Definition getRollTableResult (g : Game) (displayName : string) : M value :=
  let table_id := table_id displayName in
  match List.find (fun t => String.eqb (doc_id t) table_id) (tables g) with
  | Some table => lift (rollTable table)
  | None =>
      emit (NotificationError ("Can't find a table that matches " +:+ displayName)) ;;;
      ret VUndefined
  end.

(** *** getCompendiumTableResult *)

Definition idParts (displayName : string) : list string :=
  JsString.split "." (JsString.substring displayName 6 (JsString.indexOf displayName "]")).

Definition part (i : nat) (parts : list string) : string := nth i parts "undefined".

Definition packId (parts : list string) : string :=
  part 1 parts +:+ "." +:+ part 2 parts.

Definition format_error (displayName : string) : exn :=
  Error ("Expected format to match @UUID[Compendium.module.table.Rolltable.id] Got: "
           +:+ displayName).

Definition getCompendiumTableResult (g : Game) (displayName : string) : M value :=
  let idParts := idParts displayName in
  if negb (Nat.eqb (List.length idParts) 5) then throw (format_error displayName)
  else
    let packId := packId idParts in
    match packs g !! packId with
    | None => throw (Error ("Couldn't find a compendium with id " +:+ packId))
    | Some pack =>
        match pack !! part 4 idParts with
        | None =>
            throw (Error ("Couldn't find table with id " +:+ part 4 idParts
                            +:+ " in pack " +:+ packId))
        | Some table =>
            results <- lift (rollTable table) ;;
            unusable <- (if negb (truthy results) then ret true
                         else len <- get_prop results "length" ;;
                              ret (negb (truthy len))) ;;
            if (unusable : bool)
            then throw (Error ("Couldn't roll table id " +:+ part 4 idParts
                                 +:+ " in pack " +:+ packId))
            else ret results
        end
    end.

(** *** AllGoblinsHaveNames.rollFromTableString *)

Definition rollFromTableString (g : Game) (tableStr : string) : M value :=
  if negb (isWorldTable tableStr) && negb (isCompendiumTable tableStr)
  then ret (VStr tableStr)
  else if isWorldTable tableStr
       then getRollTableResult g tableStr
       else getCompendiumTableResult g tableStr.

(** *** mineForTableStrings *)

Definition isTable (s : string) : bool :=
  isWorldTable s || isCompendiumTable s.

(** [tokenData.actorId || tokenData.document.id] *)
Definition resolveActorId (tokenData : TokenData) : M value :=
  if truthy (actorId tokenData) then ret (actorId tokenData)
  else get_prop (document tokenData) "id".

(** The two shapes of a biography: the text found and the path recorded
    for it. *)
Definition readBiography (actorData : value) : M (value * option string) :=
  flat <- get_prop actorData "biography" ;;
  if truthy flat then ret (flat, Some "data.biography")
  else
    details <- get_prop actorData "details" ;;
    if negb (truthy details) then ret (VUndefined, None)
    else
      biography <- get_prop details "biography" ;;
      if negb (truthy biography) then ret (VUndefined, None)
      else
        text <- get_prop biography "value" ;;
        if truthy text then ret (text, Some "system.details.biography.value")
        else ret (VUndefined, None).

Definition mineForTableStrings (g : Game) (tokenData : TokenData) : M Mined :=
  let displayName := JsString.trim (name tokenData) in
  let nameTableStr := if isTable displayName then Some displayName else None in
  actorId <- resolveActorId tokenData ;;
  if negb (truthy (actorLink tokenData)) && truthy actorId then
    let actor := actors_get g actorId in
    actorData <- get_prop actor "system" ;;
    found <- readBiography actorData ;;
    let bioText := JsString.trim (innerText (fst found)) in
    let bioTableStr := if isTable bioText then Some bioText else None in
    ret (mkMined nameTableStr (snd found) bioTableStr)
  else ret (mkMined nameTableStr None None).

(** *** getNewRolledValues *)

Definition getNewRolledValues (g : Game) (toRoll : Mined) : M (option Rolled) :=
  try_catch
    (let result := mkRolled (bioDataPath toRoll) None None in
     result <- match nameTableStr toRoll with
               | Some s =>
                   if present (Some s)
                   then v <- rollFromTableString g s ;;
                        ret (mkRolled (rolled_bioDataPath result) (Some v) (rolled_bio result))
                   else ret result
               | None => ret result
               end ;;
     result <- match bioTableStr toRoll with
               | Some s =>
                   if present (Some s)
                   then v <- rollFromTableString g s ;;
                        ret (mkRolled (rolled_bioDataPath result) (rolled_name result) (Some v))
                   else ret result
               | None => ret result
               end ;;
     ret (Some result))
    (fun e =>
       emit (ConsoleWarn ("[All Goblins Have Names]: " +:+ message e)) ;;;
       ret None).

(** *** saveRolledValues *)

(** [result.k] where [result] may be [undefined]. *)
Definition result_prop {A} (result : option Rolled) (k : string) (get : Rolled -> A) : M A :=
  match result with
  | Some r => ret (get r)
  | None => throw (TypeError ("Cannot read properties of undefined (reading '" +:+ k +:+ "')"))
  end.

(** [tokenDocument.actor.update(data)]: the method is looked up on the
    actor before the argument is evaluated. *)
Definition actor_update (tokenDocument : TokenData) (data : M (list (string * value))) : M unit :=
  _ <- get_prop (actor tokenDocument) "update" ;;
  d <- data ;;
  emit (ActorUpdate d).

Definition saveRolledValues (g : Game) (tokenDocument : TokenData)
    (result : option Rolled) : M unit :=
  n <- result_prop result "name" rolled_name ;;
  emit (TokenUpdate [("name", field n)]) ;;;
  b <- result_prop result "bio" rolled_bio ;;
  (if truthy (field b)
   then actor_update tokenDocument
          (p <- result_prop result "bioDataPath" rolled_bioDataPath ;;
           b <- result_prop result "bio" rolled_bio ;;
           ret [(to_key p, field b)])
   else ret tt) ;;;
  sync <- (if truthy (syncActorName g)
           then n <- result_prop result "name" rolled_name ;; ret (truthy (field n))
           else ret false) ;;
  if (sync : bool)
  then actor_update tokenDocument
         (n <- result_prop result "name" rolled_name ;; ret [("name", field n)])
  else ret tt.

(** *** The [createToken] hook *)

Definition createToken (g : Game) (tokenDocument : TokenData) : M unit :=
  toRoll <- mineForTableStrings g tokenDocument ;;
  if negb (present (nameTableStr toRoll)) && negb (present (bioTableStr toRoll))
  then ret tt
  else
    emit (TokenNameAssign " ") ;;;
    result <- getNewRolledValues g toRoll ;;
    saveRolledValues g tokenDocument result.

End Script.

Arguments Game {host}.
Arguments mkGame {host}.

(** ** A small world to run the script in *)

Module Fixture.

(** A table document that lists its entries; rolling it draws them all. *)
Record table : Type := mkTable {
  _id : string;
  entries : list string
}.

Definition rollTable (t : table) : outcome value :=
  inr (VArr (map VStr (entries t))).

(** Modelled from the spec: the classifiers [isWorldTable] and
    [isCompendiumTable] of [table-utils.js], which is not among the
    sources.  A local reference has a fixed prefix of 16 characters before
    its identifier and a packaged reference a fixed prefix of 6 characters
    before a coordinate whose first part is a literal tag. *)
Definition isWorldTable (s : string) : bool :=
  JsString.startsWith "@UUID[RollTable." s.

Definition isCompendiumTable (s : string) : bool :=
  JsString.startsWith "@UUID[Compendium." s.

(** Text without markup renders as itself. *)
Definition innerText (v : value) : string :=
  match v with
  | VStr s => s
  | VUndefined => "undefined"
  | _ => ""
  end.

Definition host : Host :=
  mkHost table _id isWorldTable isCompendiumTable rollTable innerText.

Definition names : table := mkTable "ABC123" ["Grix"].
Definition blank : table := mkTable "EMPTY0" [].

Definition nameRef : string := "@UUID[RollTable.ABC123]{Goblin Name}".
Definition blankRef : string := "@UUID[RollTable.EMPTY0]{Nothing}".
Definition lostRef : string := "@UUID[RollTable.NOWHERE]{Lost}".
Definition packRef : string :=
  "@UUID[Compendium.monks-enhanced-journal.person-names.RollTable.AQBywLCajYDmBTay]{Dwarf Last Name}".
Definition shortRef : string :=
  "@UUID[Compendium.person-names.RollTable.AQBywLCajYDmBTay]{Dwarf}".
Definition strayRef : string :=
  "@UUID[Compendium.monks-enhanced-journal.person-names.RollTable.MISSING]{Stray}".

Definition person_names : gmap string table :=
  {[ "AQBywLCajYDmBTay" := mkTable "AQBywLCajYDmBTay" ["Ironfist"] ]}.

(** A flat biography (simple worldbuilding) and nested ones (D&D 5e). *)
Definition flatActor : value :=
  VObj [("system", VObj [("biography", VStr nameRef)])].

Definition nestedActor : value :=
  VObj [("system",
         VObj [("details", VObj [("biography", VObj [("value", VStr nameRef)])])])].

Definition dwarfActor : value :=
  VObj [("system",
         VObj [("details", VObj [("biography", VObj [("value", VStr packRef)])])])].

Definition cast : gmap string value :=
  {[ "flat" := flatActor; "nested" := nestedActor; "dwarf" := dwarfActor ]}.

Definition game : Game (host := host) :=
  mkGame (host := host) [names; blank]
    {[ "monks-enhanced-journal.person-names" := person_names ]}
    cast (VBool true).

(** The same world without any pack. *)
Definition bare : Game (host := host) :=
  mkGame (host := host) [names; blank] ∅ cast (VBool true).

Definition token (name : string) (actorId : value) (linked : bool) : TokenData :=
  mkToken name actorId (VBool linked) VUndefined (VObj []).

End Fixture.

(** ** The reroll of the selected tokens *)

(** [parts.join(sep)] for a separator of one code unit, and the number of
    times a code unit occurs in a string; they serve to state what [split]
    does. *)
Fixpoint join (sep : ascii) (parts : list string) : string :=
  match parts with
  | [] => EmptyString
  | [p] => p
  | p :: rest => p +:+ String sep (join sep rest)
  end.

Fixpoint occurrences (c : ascii) (s : string) : nat :=
  match s with
  | EmptyString => 0
  | String a rest => (if Ascii.eqb a c then 1 else 0) + occurrences c rest
  end.

(** A token of [canvas.tokens.controlled], as [rerollSelectedTokens] uses
    it: [token.actor.data.token], an object whose properties hold strings
    ([None] when that chain of properties breaks on [undefined] or [null]),
    and [token.document]. *)
Record Placeable : Type := mkPlaceable {
  prototype : option (gmap string string);
  placeable_document : TokenData
}.

(** The parameter pattern [{ nameTableStr, bioTableStr, bioDataPath }] of
    [getNewRolledValues] applied to such an object: a property that is not
    there is [undefined]. *)
Definition destructure (o : gmap string string) : Mined :=
  mkMined (o !! "nameTableStr") (o !! "bioDataPath") (o !! "bioTableStr").

Section Selection.

Context {host : Host}.

Fixpoint rerollSelectedTokens (g : Game) (controlled : list Placeable) : M unit :=
  match controlled with
  | [] => ret tt
  | token :: rest =>
      toRoll <- match prototype token with
                | Some o => ret (destructure o)
                | None => throw (TypeError "Cannot read properties of undefined")
                end ;;
      result <- getNewRolledValues g toRoll ;;
      saveRolledValues g (placeable_document token) result ;;;
      rerollSelectedTokens g rest
  end.

End Selection.

(** The calls that overwrite the visible name with the placeholder. *)
Definition blanks (ev : event) : bool :=
  match ev with
  | TokenNameAssign _ => true
  | _ => false
  end.

(** ** More actors and a selection for the small world *)

Module Stage.

(** An actor whose flat biography is empty and whose nested one is not. *)
Definition emptyFlatActor : value :=
  VObj [("system",
         VObj [("biography", VStr "");
               ("details",
                VObj [("biography", VObj [("value", VStr Fixture.nameRef)])])])].

(** An actor that carries no system data. *)
Definition hollowActor : value := VObj [("name", VStr "Hollow")].

Definition game : Game (host := Fixture.host) :=
  mkGame (host := Fixture.host) [Fixture.names; Fixture.blank]
    {[ "monks-enhanced-journal.person-names" := Fixture.person_names ]}
    {[ "emptyFlat" := emptyFlatActor; "hollow" := hollowActor ]}
    (VBool true).


(** Prototype token data as the host keeps it, and one that carries a
    reference to a missing pack under [nameTableStr]. *)
Definition plainPrototype : gmap string string :=
  {[ "name" := Fixture.nameRef; "img" := "goblin.png" ]}.

Definition brokenPrototype : gmap string string :=
  {[ "nameTableStr" := Fixture.shortRef ]}.

Definition goblin : Placeable :=
  mkPlaceable (Some plainPrototype) (Fixture.token Fixture.nameRef (VStr "flat") true).

Definition broken : Placeable :=
  mkPlaceable (Some brokenPrototype) (Fixture.token "Broken" (VStr "flat") true).

End Stage.

(** ** Facts about strings *)

Module JsStringFacts.
Import JsString.

Lemma append_nil (t : string) : "" +:+ t = t.
Proof. reflexivity. Qed.

Lemma append_cons (a : ascii) (s t : string) :
  String a s +:+ t = String a (s +:+ t).
Proof. reflexivity. Qed.

Ltac unfold_append := rewrite ?append_nil, ?append_cons.

Lemma length_app (s t : string) :
  String.length (s +:+ t) = String.length s + String.length t.
Proof.
  induction s as [|a s IH]; unfold_append; simpl; [reflexivity | now rewrite IH].
Qed.

Lemma app_assoc (s t u : string) : (s +:+ t) +:+ u = s +:+ t +:+ u.
Proof.
  induction s as [|a s IH]; unfold_append; [reflexivity | now rewrite IH].
Qed.

Lemma lacks_app (c : ascii) (s t : string) :
  lacks c (s +:+ t) = lacks c s && lacks c t.
Proof.
  induction s as [|a s IH]; unfold_append; simpl; [reflexivity|].
  rewrite IH. now rewrite andb_assoc.
Qed.

Lemma indexOf_from_first (c : ascii) (pre rest : string) (i : Z) :
  lacks c pre = true ->
  indexOf_from c (pre +:+ String c rest) i = (i + Z.of_nat (String.length pre))%Z.
Proof.
  revert i. induction pre as [|a pre IH]; intros i Hl; unfold_append; simpl in *.
  - rewrite Ascii.eqb_refl. lia.
  - apply andb_prop in Hl as [Ha Hl].
    apply negb_true_iff in Ha. rewrite Ha, IH by assumption. lia.
Qed.

Lemma substring_head (mid rest : string) :
  String.substring 0 (String.length mid) (mid +:+ rest) = mid.
Proof.
  induction mid as [|a mid IH]; unfold_append; simpl.
  - now destruct rest.
  - now rewrite IH.
Qed.

Lemma substring_middle (pre mid rest : string) :
  String.substring (String.length pre) (String.length mid) (pre +:+ mid +:+ rest) = mid.
Proof.
  induction pre as [|a pre IH]; unfold_append; simpl;
    [apply substring_head | exact IH].
Qed.

(** When the first [c] of a string comes after its first [n] code units,
    [substring(n, indexOf(c))] is what stands between the two. *)
Lemma substring_between (c : ascii) (pre mid rest : string) :
  lacks c pre = true -> lacks c mid = true ->
  let s := pre +:+ mid +:+ String c rest in
  substring s (Z.of_nat (String.length pre)) (indexOf s c) = mid.
Proof.
  intros Hp Hm s. subst s. unfold indexOf.
  rewrite <- app_assoc.
  rewrite indexOf_from_first by (rewrite lacks_app, Hp, Hm; reflexivity).
  unfold substring, clamp. rewrite !length_app. simpl String.length.
  set (p := String.length pre). set (m := String.length mid).
  set (r := String.length rest).
  replace (Z.to_nat _) with p by lia.
  replace (Z.to_nat _) with m by lia.
  rewrite app_assoc.
  apply substring_middle.
Qed.

End JsStringFacts.

(** ** Running the monad *)

Lemma bind_ret_l {A B} (a : A) (f : A -> M B) : bind (ret a) f = f a.
Proof. unfold bind, ret. now destruct (f a). Qed.

Lemma bind_throw {A B} (e : exn) (f : A -> M B) : bind (throw e) f = throw e.
Proof. reflexivity. Qed.

Lemma bind_lift_inl {A B} (e : exn) (f : A -> M B) : bind (lift (inl e)) f = ([], inl e).
Proof. reflexivity. Qed.

Lemma bind_lift_inr {A B} (a : A) (f : A -> M B) : bind (lift (inr a)) f = f a.
Proof. unfold bind, lift. now destruct (f a). Qed.

Lemma get_prop_defined (v : value) (k : string) :
  nullish v = false -> get_prop v k = ret (prop v k).
Proof. unfold get_prop. now intros ->. Qed.

Lemma get_prop_truthy (v : value) (k : string) :
  truthy v = true -> get_prop v k = ret (prop v k).
Proof. intros Hv. apply get_prop_defined. now destruct v. Qed.

(** The messages of the script's own errors start differently, so none is
    mistaken for another. *)
Ltac distinct_messages :=
  match goal with
  | H : Error _ = Error _ |- _ =>
      injection H as H; rewrite ?JsStringFacts.append_cons in H; discriminate H
  | H : inl _ = inl _ |- _ => injection H as H; distinct_messages
  | H : (_, inl _) = (_, inl _) |- _ => injection H as ? H; distinct_messages
  end.

(** ** Resolving a reference *)

Section Resolution.

Context {host : Host}.
Implicit Types (g : Game) (displayName tableStr : string).

Lemma rollFromTableString_world g tableStr :
  isWorldTable tableStr = true ->
  rollFromTableString g tableStr = getRollTableResult g tableStr.
Proof. unfold rollFromTableString. now intros ->. Qed.

Lemma rollFromTableString_compendium g tableStr :
  isWorldTable tableStr = false -> isCompendiumTable tableStr = true ->
  rollFromTableString g tableStr = getCompendiumTableResult g tableStr.
Proof. unfold rollFromTableString. now intros -> ->. Qed.

Lemma find_none_iff g displayName :
  (forall t, In t (tables g) -> doc_id t <> table_id displayName) ->
  List.find (fun t => String.eqb (doc_id t) (table_id displayName)) (tables g) = None.
Proof.
  intros Hno. induction (tables g) as [|t ts IH]; simpl; [reflexivity|].
  destruct (String.eqb_spec (doc_id t) (table_id displayName)) as [Heq|_].
  - exfalso. apply (Hno t); [now left | exact Heq].
  - apply IH. intros t' Hin. apply Hno. now right.
Qed.

Lemma getCompendiumTableResult_malformed g displayName :
  List.length (idParts displayName) <> 5 ->
  getCompendiumTableResult g displayName = ([], inl (format_error displayName)).
Proof.
  intros Hlen. unfold getCompendiumTableResult.
  destruct (Nat.eqb_spec (List.length (idParts displayName)) 5) as [Heq|_];
    [contradiction | reflexivity].
Qed.

(** With five parts, whatever is thrown is one of the three lookup and roll
    errors of the script or comes out of [rollTable]. *)
Lemma getCompendiumTableResult_wellformed_throw g displayName log e :
  List.length (idParts displayName) = 5 ->
  getCompendiumTableResult g displayName = (log, inl e) ->
  let parts := idParts displayName in
  e = Error ("Couldn't find a compendium with id " +:+ packId parts)
  \/ e = Error ("Couldn't find table with id " +:+ part 4 parts
                  +:+ " in pack " +:+ packId parts)
  \/ e = Error ("Couldn't roll table id " +:+ part 4 parts
                  +:+ " in pack " +:+ packId parts)
  \/ exists t, rollTable t = inl e.
Proof.
  intros Hlen. unfold getCompendiumTableResult. rewrite Hlen. simpl.
  destruct (packs g !! packId (idParts displayName)) as [pack|];
    [|intros [= _ <-]; now left].
  destruct (pack !! part 4 (idParts displayName)) as [t|];
    [|intros [= _ <-]; right; now left].
  destruct (rollTable t) as [e'|results] eqn:Hroll.
  - intros [= _ <-]. right; right; right. now exists t.
  - destruct (truthy results) eqn:Ht; simpl.
    + rewrite (get_prop_truthy _ _ Ht). simpl.
      destruct (truthy (prop results "length")); simpl;
        [discriminate | intros [= _ <-]; right; right; now left].
    + intros [= _ <-]. right; right; now left.
Qed.

(** C1: a string that is classified neither as a local (world) table
    reference nor as a packaged (compendium) table reference is returned
    by [rollFromTableString] as it is: the very string, nothing thrown,
    nothing reported. *)
Theorem rollFromTableString_passthrough g tableStr :
  isWorldTable tableStr = false ->
  isCompendiumTable tableStr = false ->
  rollFromTableString g tableStr = ([], inr (VStr tableStr)).
Proof. unfold rollFromTableString. now intros -> ->. Qed.

(** C3: for a packaged (compendium) reference, the text from position 6
    to the first closing bracket is split on the dot; resolution throws
    the format error, whose message ends with the input string, exactly
    when that split does not have 5 parts (the roll primitive is assumed
    not to throw that same error itself).  When the first closing bracket
    comes after the 6-character prefix, the text that is split is what
    stands strictly between the two. *)
Theorem packaged_format_check g displayName :
  isWorldTable displayName = false ->
  isCompendiumTable displayName = true ->
  (forall t : Doc, rollTable t <> inl (format_error displayName)) ->
  (List.length (idParts displayName) <> 5 <->
     snd (rollFromTableString g displayName) = inl (format_error displayName))
  /\ (List.length (idParts displayName) <> 5 ->
        fst (rollFromTableString g displayName) = [])
  /\ (forall pre mid rest,
        displayName = pre +:+ mid +:+ String "]" rest ->
        String.length pre = 6 ->
        JsString.lacks "]" pre = true ->
        JsString.lacks "]" mid = true ->
        idParts displayName = JsString.split "." mid).
Proof.
  intros Hw Hc Hroll. rewrite (rollFromTableString_compendium g _ Hw Hc).
  split; [split|split].
  - intros Hlen. now rewrite getCompendiumTableResult_malformed.
  - intros Hthrow Hlen.
    destruct (getCompendiumTableResult g displayName) as [log r] eqn:Hrun.
    simpl in Hthrow. subst r.
    destruct (getCompendiumTableResult_wellformed_throw g _ _ _ Hlen Hrun)
      as [H|[H|[H|[t H]]]]; [unfold format_error in H; distinct_messages ..|].
    now apply (Hroll t).
  - intros Hlen. now rewrite getCompendiumTableResult_malformed.
  - intros pre mid rest -> Hpre Hlp Hlm. unfold idParts.
    change 6%Z with (Z.of_nat 6). rewrite <- Hpre.
    now rewrite (JsStringFacts.substring_between "]" pre mid rest Hlp Hlm).
Qed.

(** C4: for a packaged reference with the five parts
    [tag.namespace.package.type.id], resolution throws an error naming
    [namespace.package] when the pack registry has no such pack, and an
    error naming both [id] and [namespace.package] when the pack exists
    but holds no document [id]. *)
Theorem packaged_lookup_errors g displayName (tag namespace package type id : string) :
  isWorldTable displayName = false ->
  isCompendiumTable displayName = true ->
  idParts displayName = [tag; namespace; package; type; id] ->
  let coordinate := namespace +:+ "." +:+ package in
  (packs g !! coordinate = None ->
     rollFromTableString g displayName
     = ([], inl (Error ("Couldn't find a compendium with id " +:+ coordinate))))
  /\ (forall pack : gmap string Doc,
        packs g !! coordinate = Some pack ->
        pack !! id = None ->
        rollFromTableString g displayName
        = ([], inl (Error ("Couldn't find table with id " +:+ id
                             +:+ " in pack " +:+ coordinate)))).
Proof.
  intros Hw Hc Hparts coordinate.
  rewrite (rollFromTableString_compendium g _ Hw Hc).
  unfold getCompendiumTableResult. rewrite Hparts. simpl.
  unfold packId, part. simpl. fold coordinate. split.
  - now intros ->.
  - intros pack -> Hid. now rewrite Hid.
Qed.

(** C5: for a local (world) reference whose parsed identifier is the
    identifier of no table of the local registry, resolution reports
    exactly one error notification, which names the reference string,
    returns [undefined] and throws nothing. *)
Theorem local_not_found g displayName :
  isWorldTable displayName = true ->
  (forall t, In t (tables g) -> doc_id t <> table_id displayName) ->
  rollFromTableString g displayName
  = ([NotificationError ("Can't find a table that matches " +:+ displayName)],
     inr VUndefined).
Proof.
  intros Hw Hno. rewrite (rollFromTableString_world g _ Hw).
  unfold getRollTableResult. now rewrite find_none_iff.
Qed.

End Resolution.

(** ** What resolution hands back *)

Section Results.

Context {host : Host}.
Implicit Types (g : Game) (displayName : string).

(** The packaged path never returns an unusable roll: what it returns is
    neither [undefined] nor [null] nor an empty array. *)
Lemma getCompendiumTableResult_usable g displayName log results :
  getCompendiumTableResult g displayName = (log, inr results) ->
  truthy results = true
  /\ truthy (prop results "length") = true
  /\ results <> VArr [].
Proof.
  unfold getCompendiumTableResult.
  destruct (negb _); [discriminate|].
  destruct (packs g !! _) as [pack|]; [|discriminate].
  destruct (pack !! _) as [t|]; [|discriminate].
  destruct (rollTable t) as [e|v]; [discriminate|]. rewrite bind_lift_inr.
  destruct (truthy v) eqn:Hv; simpl; [|discriminate].
  rewrite (get_prop_truthy _ _ Hv). simpl.
  destruct (truthy (prop v "length")) eqn:Hlen; simpl; [|discriminate].
  intros [= _ <-]. repeat split; try assumption.
  intros ->. discriminate Hlen.
Qed.


End Results.

(** C2: a local reference to a table whose roll is empty.  The table
    [EMPTY0] is in the local registry and rolls to an empty array;
    resolution returns that empty array as its result, throws nothing and
    notifies nobody, where the packaged path throws on the same roll. *)
Theorem local_empty_roll_returned :
  isWorldTable (Host := Fixture.host) Fixture.blankRef = true
  /\ rollTable (Host := Fixture.host) Fixture.blank = inr (VArr [])
  /\ rollFromTableString (host := Fixture.host) Fixture.game Fixture.blankRef
     = ([], inr (VArr [])).
Proof. repeat split. Qed.

(** ** Mining a token *)

Section Mining.

Context {host : Host}.
Implicit Types (g : Game) (tokenData : TokenData).

Lemma actors_get_absent g (id : value) :
  (forall s, id = VStr s -> actors g !! s = None) ->
  actors_get g id = VUndefined.
Proof.
  intros Habs. destruct id; try reflexivity.
  simpl. now rewrite (Habs s eq_refl).
Qed.

Lemma resolveActorId_silent tokenData (log : list event) (r : outcome value) :
  resolveActorId tokenData = (log, r) -> log = [].
Proof.
  unfold resolveActorId, get_prop.
  destruct (truthy _); [|destruct (nullish _)]; now intros [= <- _].
Qed.

Lemma mine_linked g tokenData :
  truthy (actorLink tokenData) = true ->
  mineForTableStrings g tokenData
  = (_ <- resolveActorId tokenData ;;
     ret (mkMined (if isTable (JsString.trim (name tokenData))
                   then Some (JsString.trim (name tokenData)) else None)
            None None)).
Proof. unfold mineForTableStrings. now intros ->. Qed.

(** C7: for a token that is linked to its actor ([actorLink] set), mining
    does not depend on the actor registry at all, so it reads no
    biography; a mining result it returns has neither a bio reference nor
    a bio field path; and it does return one whenever the token has an
    actor id or a document to take an id from. *)
Theorem linked_token_no_bio g tokenData :
  truthy (actorLink tokenData) = true ->
  (forall g' : Game,
      mineForTableStrings g' tokenData = mineForTableStrings g tokenData)
  /\ (forall log mined,
        mineForTableStrings g tokenData = (log, inr mined) ->
        bioTableStr mined = None /\ bioDataPath mined = None)
  /\ (truthy (actorId tokenData) = true \/ nullish (document tokenData) = false ->
      exists mined, mineForTableStrings g tokenData = ([], inr mined)).
Proof.
  intros Hlink. split; [|split].
  - intros g'. now rewrite !mine_linked.
  - intros log mined. rewrite (mine_linked _ _ Hlink).
    destruct (resolveActorId tokenData) as [l [e|id]]; simpl; [discriminate|].
    now intros [= _ <-].
  - intros Hid. rewrite (mine_linked _ _ Hlink). unfold resolveActorId.
    destruct (truthy (actorId tokenData)) eqn:Ha.
    + rewrite bind_ret_l. eexists. reflexivity.
    + destruct Hid as [Hid|Hdoc]; [discriminate|].
      rewrite (get_prop_defined _ _ Hdoc), bind_ret_l. eexists. reflexivity.
Qed.

(** The nested branch records the path it read: following the recorded
    path from the actor leads to the text that was found. *)
Lemma readBiography_nested_path (actorDoc text : value) (log : list event) :
  readBiography (prop actorDoc "system")
  = (log, inr (text, Some "system.details.biography.value")) ->
  nullish actorDoc = false ->
  read_path actorDoc (JsString.split "." "system.details.biography.value") = text.
Proof.
  intros Hread Hactor. unfold readBiography, get_prop in Hread.
  change (JsString.split "." "system.details.biography.value")
    with ["system"; "details"; "biography"; "value"].
  simpl. rewrite Hactor.
  set (sys := prop actorDoc "system") in *.
  destruct (nullish sys) eqn:Hsys; [discriminate|]. simpl in Hread.
  destruct (truthy (prop sys "biography")); [discriminate|].
  set (details := prop sys "details") in *.
  destruct (truthy details) eqn:Hd; simpl in Hread; [|discriminate].
  assert (nullish details = false) as Hnd by now destruct details.
  rewrite Hnd in *. simpl in Hread.
  set (biography := prop details "biography") in *.
  destruct (truthy biography) eqn:Hb; simpl in Hread; [|discriminate].
  assert (nullish biography = false) as Hnb by now destruct biography.
  rewrite Hnb in *. simpl in Hread.
  destruct (truthy (prop biography "value")); simpl in Hread; [|discriminate].
  now injection Hread as _ <-.
Qed.

(** The flat branch reads [actor.system.biography], whatever path it
    records. *)
Lemma readBiography_flat_read (actorDoc text : value) (log : list event) :
  readBiography (prop actorDoc "system") = (log, inr (text, Some "data.biography")) ->
  nullish actorDoc = false ->
  read_path actorDoc ["system"; "biography"] = text /\ truthy text = true.
Proof.
  intros Hread Hactor. unfold readBiography, get_prop in Hread.
  simpl. rewrite Hactor.
  set (sys := prop actorDoc "system") in *.
  destruct (nullish sys) eqn:Hsys; [discriminate|]. simpl in Hread.
  destruct (truthy (prop sys "biography")) eqn:Hflat; simpl in Hread.
  - injection Hread as _ <-. now split.
  - destruct (truthy (prop sys "details")); simpl in Hread; [|discriminate].
    destruct (nullish (prop sys "details")); [discriminate|]. simpl in Hread.
    destruct (truthy (prop (prop sys "details") "biography")); simpl in Hread;
      [|discriminate].
    destruct (nullish (prop (prop sys "details") "biography")); [discriminate|].
    simpl in Hread.
    destruct (truthy (prop (prop (prop sys "details") "biography") "value"));
      discriminate.
Qed.

(** C10: for a token that is not linked to its actor and whose actor id
    (its own [actorId] or, when that is empty, the id of its document) is
    not empty and names no actor of the registry, [mineForTableStrings]
    throws a [TypeError] instead of returning, and so does the
    [createToken] handler, before any assignment, update, notification or
    warning. *)
Theorem unknown_actor_throws g tokenData (id : value) :
  truthy (actorLink tokenData) = false ->
  resolveActorId tokenData = ([], inr id) ->
  truthy id = true ->
  (forall s, id = VStr s -> actors g !! s = None) ->
  exists msg,
    mineForTableStrings g tokenData = ([], inl (TypeError msg))
    /\ createToken g tokenData = ([], inl (TypeError msg)).
Proof.
  intros Hlink Hid Htruthy Habsent.
  assert (mineForTableStrings g tokenData
          = ([], inl (TypeError "Cannot read properties of undefined (reading 'system')")))
    as Hmine.
  { unfold mineForTableStrings. rewrite Hid, Hlink. simpl. rewrite Htruthy.
    now rewrite (actors_get_absent _ _ Habsent). }
  eexists. split; [exact Hmine|].
  unfold createToken. now rewrite Hmine.
Qed.

End Mining.

(** C8: a token that is not linked, whose actor keeps its biography in the
    flat field.  Mining reads the text from [system.biography] of the actor
    but records the path [data.biography]; following the recorded path from
    the actor leads to nothing, while the nested shape records the path it
    reads. *)
Theorem flat_biography_path_mismatch :
  let tokenData := Fixture.token "Goblin" (VStr "flat") false in
  mineForTableStrings (host := Fixture.host) Fixture.game tokenData
  = ([], inr (mkMined None (Some "data.biography") (Some Fixture.nameRef)))
  /\ read_path Fixture.flatActor ["system"; "biography"] = VStr Fixture.nameRef
  /\ read_path Fixture.flatActor (JsString.split "." "data.biography") = VUndefined
  /\ read_path Fixture.nestedActor (JsString.split "." "system.details.biography.value")
     = VStr Fixture.nameRef.
Proof. repeat split. Qed.

(** ** Rolling and writing back *)

Section Pipeline.

Context {host : Host}.
Implicit Types (g : Game) (tokenDocument : TokenData) (toRoll : Mined).

(** Nothing thrown inside [getNewRolledValues] leaves it. *)
Lemma getNewRolledValues_catches g toRoll :
  exists log result, getNewRolledValues g toRoll = (log, inr result).
Proof.
  unfold getNewRolledValues, try_catch.
  match goal with |- context [match ?m with _ => _ end] => destruct m as [log [e|r]] end;
    simpl; eauto.
Qed.

(** X13: when the name resolves and the bio reference then throws, the
    warning is logged and no record at all is returned: the resolved name
    is dropped with it. *)
Lemma getNewRolledValues_bio_throws g toRoll (n b : string) (v : value)
    (l1 l2 : list event) (e : exn) :
  nameTableStr toRoll = Some n -> n <> "" ->
  bioTableStr toRoll = Some b -> b <> "" ->
  rollFromTableString g n = (l1, inr v) ->
  rollFromTableString g b = (l2, inl e) ->
  getNewRolledValues g toRoll
  = (l1 ++ l2 ++ [ConsoleWarn ("[All Goblins Have Names]: " +:+ message e)], inr None).
Proof.
  intros Hn Hne Hb Hbe Hrn Hrb. unfold getNewRolledValues, present.
  rewrite Hn, Hb. simpl.
  destruct (String.eqb_spec n "") as [|_]; [contradiction|].
  destruct (String.eqb_spec b "") as [|_]; [contradiction|].
  simpl. rewrite Hrn, Hrb. simpl. now rewrite app_nil_r, <- app_assoc.
Qed.

(** [saveRolledValues] given [undefined] throws on its first line. *)
Lemma saveRolledValues_undefined g tokenDocument :
  saveRolledValues g tokenDocument None
  = ([], inl (TypeError "Cannot read properties of undefined (reading 'name')")).
Proof. reflexivity. Qed.

(** C9: writing back a result record to a token that has an actor: the
    token's name is updated with the record's name in every case (with
    [undefined] when there is none); the actor is updated at the recorded
    field path with the bio exactly when the record holds a bio; and the
    actor's name is updated exactly when the "sync actor name" setting is
    on and the record holds a name.  These are all the calls made, in
    this order, and nothing is thrown. *)
Theorem saveRolledValues_writes g tokenDocument (result : Rolled) :
  nullish (actor tokenDocument) = false ->
  let name := field (rolled_name result) in
  let bio := field (rolled_bio result) in
  saveRolledValues g tokenDocument (Some result)
  = (TokenUpdate [("name", name)]
       :: (if truthy bio
           then [ActorUpdate [(to_key (rolled_bioDataPath result), bio)]]
           else [])
       ++ (if truthy (syncActorName g) && truthy name
           then [ActorUpdate [("name", name)]]
           else []),
     inr tt).
Proof.
  intros Hactor name bio.
  unfold saveRolledValues, actor_update, result_prop, get_prop.
  rewrite Hactor. subst name bio. unfold bind, ret, emit. simpl.
  destruct (truthy (field (rolled_bio result))),
    (truthy (syncActorName g)), (truthy (field (rolled_name result)));
    reflexivity.
Qed.

End Pipeline.

(** C6: a mining result with a name reference that resolves and a bio
    reference whose pack is missing.  [getNewRolledValues] catches the
    error and logs the warning with the module's prefix, but returns
    [undefined] instead of a record holding the resolved name; the
    [createToken] handler then throws on that [undefined] before any
    update. *)
Theorem partial_failure_drops_record :
  let tokenDocument := Fixture.token Fixture.nameRef (VStr "dwarf") false in
  let toRoll :=
    mkMined (Some Fixture.nameRef) (Some "system.details.biography.value")
      (Some Fixture.packRef) in
  let warning :=
    ConsoleWarn "[All Goblins Have Names]: Couldn't find a compendium with id monks-enhanced-journal.person-names" in
  mineForTableStrings (host := Fixture.host) Fixture.bare tokenDocument = ([], inr toRoll)
  /\ rollFromTableString (host := Fixture.host) Fixture.bare Fixture.nameRef
     = ([], inr (VArr [VStr "Grix"]))
  /\ getNewRolledValues (host := Fixture.host) Fixture.bare toRoll = ([warning], inr None)
  /\ createToken (host := Fixture.host) Fixture.bare tokenDocument
     = ([TokenNameAssign " "; warning],
        inl (TypeError "Cannot read properties of undefined (reading 'name')")).
Proof. repeat split. Qed.

(** ** The theorems at work on the small world *)

Lemma rollFromTableString_passthrough_witness :
  rollFromTableString (host := Fixture.host) Fixture.game "Goblin"
  = ([], inr (VStr "Goblin")).
Proof.
  apply (rollFromTableString_passthrough (host := Fixture.host)); reflexivity.
Defined.

Lemma packaged_format_check_witness :
  snd (rollFromTableString (host := Fixture.host) Fixture.game Fixture.shortRef)
  = inl (format_error Fixture.shortRef)
  /\ idParts Fixture.packRef
     = JsString.split "." "Compendium.monks-enhanced-journal.person-names.RollTable.AQBywLCajYDmBTay".
Proof.
  split.
  - apply (packaged_format_check (host := Fixture.host) Fixture.game Fixture.shortRef);
      [reflexivity | reflexivity | intros t; discriminate | vm_compute; lia].
  - apply (packaged_format_check (host := Fixture.host) Fixture.game Fixture.packRef
             eq_refl eq_refl (fun t => ltac:(discriminate)))
      with (pre := "@UUID[") (rest := "{Dwarf Last Name}"); reflexivity.
Defined.

Lemma packaged_lookup_errors_witness :
  rollFromTableString (host := Fixture.host) Fixture.bare Fixture.packRef
  = ([], inl (Error "Couldn't find a compendium with id monks-enhanced-journal.person-names"))
  /\ rollFromTableString (host := Fixture.host) Fixture.game Fixture.strayRef
     = ([], inl (Error "Couldn't find table with id MISSING in pack monks-enhanced-journal.person-names")).
Proof.
  split.
  - apply (packaged_lookup_errors (host := Fixture.host) Fixture.bare Fixture.packRef
             "Compendium" "monks-enhanced-journal" "person-names" "RollTable"
             "AQBywLCajYDmBTay"); reflexivity.
  - apply (packaged_lookup_errors (host := Fixture.host) Fixture.game Fixture.strayRef
             "Compendium" "monks-enhanced-journal" "person-names" "RollTable"
             "MISSING" eq_refl eq_refl eq_refl) with (pack := Fixture.person_names);
      reflexivity.
Defined.

Lemma local_not_found_witness :
  rollFromTableString (host := Fixture.host) Fixture.game Fixture.lostRef
  = ([NotificationError "Can't find a table that matches @UUID[RollTable.NOWHERE]{Lost}"],
     inr VUndefined).
Proof.
  apply (local_not_found (host := Fixture.host) Fixture.game Fixture.lostRef);
    [reflexivity|].
  intros t [<-|[<-|[]]]; vm_compute; discriminate.
Defined.

Lemma linked_token_no_bio_witness :
  mineForTableStrings (host := Fixture.host) Fixture.game
    (Fixture.token Fixture.nameRef (VStr "flat") true)
  = mineForTableStrings (host := Fixture.host) Fixture.bare
      (Fixture.token Fixture.nameRef (VStr "flat") true).
Proof.
  apply (linked_token_no_bio (host := Fixture.host) Fixture.bare
           (Fixture.token Fixture.nameRef (VStr "flat") true)).
  reflexivity.
Defined.

Lemma unknown_actor_throws_witness :
  exists msg,
    mineForTableStrings (host := Fixture.host) Fixture.game
      (Fixture.token Fixture.nameRef (VStr "gone") false)
    = ([], inl (TypeError msg))
    /\ createToken (host := Fixture.host) Fixture.game
         (Fixture.token Fixture.nameRef (VStr "gone") false)
       = ([], inl (TypeError msg)).
Proof.
  apply (unknown_actor_throws (host := Fixture.host) Fixture.game
           (Fixture.token Fixture.nameRef (VStr "gone") false) (VStr "gone"));
    try reflexivity.
  intros s [= <-]. reflexivity.
Defined.

Lemma saveRolledValues_writes_witness :
  saveRolledValues (host := Fixture.host) Fixture.game
    (Fixture.token " " (VStr "nested") false)
    (Some (mkRolled (Some "system.details.biography.value")
             (Some (VArr [VStr "Grix"])) None))
  = ([TokenUpdate [("name", VArr [VStr "Grix"])];
      ActorUpdate [("name", VArr [VStr "Grix"])]],
     inr tt).
Proof.
  apply (saveRolledValues_writes (host := Fixture.host) Fixture.game
           (Fixture.token " " (VStr "nested") false)
           (mkRolled (Some "system.details.biography.value")
              (Some (VArr [VStr "Grix"])) None)).
  reflexivity.
Defined.

(** ** Parsing the references *)

Module SplitFacts.
Import JsString JsStringFacts.

Lemma split_lacks (sep : ascii) (s : string) :
  lacks sep s = true -> split sep s = [s].
Proof.
  induction s as [|a s IH]; simpl; [reflexivity|].
  intros [Ha Hs]%andb_prop. apply negb_true_iff in Ha.
  now rewrite Ha, (IH Hs).
Qed.

Lemma split_app (sep : ascii) (p r : string) :
  lacks sep p = true -> split sep (p +:+ String sep r) = p :: split sep r.
Proof.
  induction p as [|a p IH]; unfold_append; simpl.
  - intros _. now rewrite Ascii.eqb_refl.
  - intros [Ha Hp]%andb_prop. apply negb_true_iff in Ha.
    now rewrite Ha, (IH Hp).
Qed.

Lemma split_join (sep : ascii) (parts : list string) :
  parts <> [] ->
  Forall (fun p => lacks sep p = true) parts ->
  split sep (join sep parts) = parts.
Proof.
  induction parts as [|p rest IH]; [contradiction|].
  intros _ Hall. inversion Hall as [|? ? Hp Hrest]; subst.
  destruct rest as [|q rest].
  - simpl. now apply split_lacks.
  - change (join sep (p :: q :: rest)) with (p +:+ String sep (join sep (q :: rest))).
    rewrite (split_app _ _ _ Hp). f_equal. now apply IH.
Qed.

Lemma split_length (sep : ascii) (s : string) :
  List.length (split sep s) = S (occurrences sep s).
Proof.
  induction s as [|a s IH]; simpl; [reflexivity|].
  destruct (Ascii.eqb a sep); simpl.
  - now rewrite IH.
  - destruct (split sep s) as [|part parts]; simpl in *; [discriminate IH | exact IH].
Qed.

Lemma lacks_join (c sep : ascii) (parts : list string) :
  Ascii.eqb sep c = false ->
  Forall (fun p => lacks c p = true) parts ->
  lacks c (join sep parts) = true.
Proof.
  intros Hc. induction parts as [|p rest IH]; [reflexivity|].
  intros Hall. inversion Hall as [|? ? Hp Hrest]; subst.
  destruct rest as [|q rest]; [exact Hp|].
  change (join sep (p :: q :: rest)) with (p +:+ String sep (join sep (q :: rest))).
  rewrite lacks_app, Hp. simpl. rewrite Hc. simpl. now apply IH.
Qed.

Lemma indexOf_from_lacks (c : ascii) (s : string) (i : Z) :
  lacks c s = true -> indexOf_from c s i = (-1)%Z.
Proof.
  revert i. induction s as [|a s IH]; intros i; simpl; [reflexivity|].
  intros [Ha Hs]%andb_prop. apply negb_true_iff in Ha.
  now rewrite Ha, (IH _ Hs).
Qed.

Lemma substring_prefix_min (m : nat) (s : string) :
  String.substring 0 (Nat.min m (String.length s)) s = String.substring 0 m s.
Proof.
  revert m. induction s as [|a s IH]; intros [|m]; simpl; try reflexivity.
  now rewrite IH.
Qed.

(** Without the needle, [substring(n, indexOf(c))] is [substring(n, -1)]:
    the first [n] code units. *)
Lemma substring_no_needle (c : ascii) (s : string) (n : nat) :
  lacks c s = true ->
  substring s (Z.of_nat n) (indexOf s c) = String.substring 0 n s.
Proof.
  intros Hs. unfold indexOf. rewrite (indexOf_from_lacks _ _ _ Hs).
  unfold substring, clamp. rewrite <- (substring_prefix_min n s).
  f_equal; lia.
Qed.

End SplitFacts.

Section Parsing.

Context {host : Host}.
Implicit Types (g : Game) (displayName : string).

(** X1: the identifier parsed from a local reference is the text between
    its first 16 code units and the first closing bracket after them. *)
Theorem table_id_parses (pre id rest : string) :
  String.length pre = 16 ->
  JsString.lacks "]" pre = true ->
  JsString.lacks "]" id = true ->
  table_id (pre +:+ id +:+ String "]" rest) = id.
Proof.
  intros Hlen Hpre Hid. unfold table_id.
  change 16%Z with (Z.of_nat 16). rewrite <- Hlen.
  exact (JsStringFacts.substring_between "]" pre id rest Hpre Hid).
Qed.

(** X2: the coordinate of a packaged reference is taken apart as it was
    put together: after 6 code units without a closing bracket, parts
    that hold neither a dot nor a closing bracket, joined by dots and
    closed by a bracket, are parsed back as those parts. *)
Theorem idParts_parses (pre rest : string) (parts : list string) :
  String.length pre = 6 ->
  JsString.lacks "]" pre = true ->
  parts <> [] ->
  Forall (fun p => JsString.lacks "." p = true) parts ->
  Forall (fun p => JsString.lacks "]" p = true) parts ->
  idParts (pre +:+ join "." parts +:+ String "]" rest) = parts.
Proof.
  intros Hlen Hpre Hne Hdots Hbrackets. unfold idParts.
  change 6%Z with (Z.of_nat 6). rewrite <- Hlen.
  rewrite (JsStringFacts.substring_between "]" pre (join "." parts) rest Hpre)
    by (apply SplitFacts.lacks_join; [reflexivity | assumption]).
  now apply SplitFacts.split_join.
Qed.

(** X3: the number of parts of a packaged reference is one more than the
    number of dots before its closing bracket, so the format error is
    thrown exactly when that text does not hold 4 dots: a dot inside the
    name of a pack or inside an identifier is enough. *)
Theorem format_error_counts_dots g displayName :
  let coordinate :=
    JsString.substring displayName 6 (JsString.indexOf displayName "]") in
  List.length (idParts displayName) = S (occurrences "." coordinate)
  /\ (occurrences "." coordinate <> 4 ->
      getCompendiumTableResult g displayName = ([], inl (format_error displayName))).
Proof.
  intros coordinate.
  assert (List.length (idParts displayName) = S (occurrences "." coordinate)) as Hlen
    by apply SplitFacts.split_length.
  split; [exact Hlen|].
  intros Hdots. apply getCompendiumTableResult_malformed. rewrite Hlen. lia.
Qed.

(** X4: a reference without any closing bracket.  [indexOf] yields [-1]
    and [substring] swaps its bounds, so the identifier of a local
    reference is its own first 16 code units and the parts of a packaged
    reference are those of its first 6 code units. *)
Theorem unclosed_reference displayName :
  JsString.lacks "]" displayName = true ->
  table_id displayName = String.substring 0 16 displayName
  /\ idParts displayName = JsString.split "." (String.substring 0 6 displayName).
Proof.
  intros Hs. unfold table_id, idParts.
  change 16%Z with (Z.of_nat 16). change 6%Z with (Z.of_nat 6).
  now rewrite !(SplitFacts.substring_no_needle "]" _ _ Hs).
Qed.

End Parsing.

Lemma table_id_parses_witness :
  table_id "@UUID[RollTable.OfTzIzGy7fyCgGz7]{Elf First Name}" = "OfTzIzGy7fyCgGz7".
Proof.
  apply (table_id_parses "@UUID[RollTable." "OfTzIzGy7fyCgGz7" "{Elf First Name}");
    reflexivity.
Defined.

Lemma idParts_parses_witness :
  idParts Fixture.packRef
  = ["Compendium"; "monks-enhanced-journal"; "person-names"; "RollTable";
     "AQBywLCajYDmBTay"].
Proof.
  apply (idParts_parses "@UUID[" "{Dwarf Last Name}"
           ["Compendium"; "monks-enhanced-journal"; "person-names"; "RollTable";
            "AQBywLCajYDmBTay"]);
    [reflexivity | reflexivity | discriminate | | ];
    repeat constructor.
Defined.

Lemma format_error_counts_dots_witness :
  getCompendiumTableResult (host := Fixture.host) Fixture.game
    "@UUID[Compendium.dnd5e.tables.v2.RollTable.x]{dotted}"
  = ([], inl (format_error "@UUID[Compendium.dnd5e.tables.v2.RollTable.x]{dotted}")).
Proof.
  apply (format_error_counts_dots (host := Fixture.host) Fixture.game
           "@UUID[Compendium.dnd5e.tables.v2.RollTable.x]{dotted}").
  vm_compute. lia.
Defined.

Lemma unclosed_reference_witness :
  table_id "@UUID[RollTable.ABC123" = "@UUID[RollTable."
  /\ idParts "@UUID[Compendium.a.b.RollTable.c" = ["@UUID["].
Proof.
  split.
  - apply (unclosed_reference "@UUID[RollTable.ABC123"). reflexivity.
  - apply (unclosed_reference "@UUID[Compendium.a.b.RollTable.c"). reflexivity.
Defined.

(** ** More on resolution *)

Section ResolutionCases.

Context {host : Host}.
Implicit Types (g : Game) (displayName : string).

Lemma find_first {A} (f : A -> bool) (before after : list A) (x : A) :
  Forall (fun y => f y = false) before -> f x = true ->
  List.find f (before ++ x :: after) = Some x.
Proof.
  intros Hb Hx. induction Hb as [|y before Hy _ IH]; simpl.
  - now rewrite Hx.
  - now rewrite Hy.
Qed.

Lemma getCompendiumTableResult_silent g displayName :
  fst (getCompendiumTableResult g displayName) = [].
Proof.
  unfold getCompendiumTableResult.
  destruct (negb _); [reflexivity|].
  destruct (packs g !! _) as [pack|]; [|reflexivity].
  destruct (pack !! _) as [t|]; [|reflexivity].
  destruct (rollTable t) as [e|v]; [reflexivity|]. rewrite bind_lift_inr.
  destruct (truthy v) eqn:Hv; simpl; [|reflexivity].
  rewrite (get_prop_truthy _ _ Hv). simpl.
  now destruct (truthy (prop v "length")).
Qed.

(** X5: a local reference is resolved on the first table of the registry
    that carries the parsed identifier; what comes back is what rolling
    that table gives, a thrown error included, and nothing is reported. *)
Theorem local_first_match g displayName (before after : list Doc) (t : Doc) :
  isWorldTable displayName = true ->
  tables g = before ++ t :: after ->
  Forall (fun t' => doc_id t' <> table_id displayName) before ->
  doc_id t = table_id displayName ->
  rollFromTableString g displayName = ([], rollTable t).
Proof.
  intros Hw Htables Hbefore Hid. rewrite (rollFromTableString_world g _ Hw).
  unfold getRollTableResult. rewrite Htables, (find_first _ before after t).
  - reflexivity.
  - eapply Forall_impl; [exact Hbefore|]. intros t' Hne. simpl in Hne.
    now destruct (String.eqb_spec (doc_id t') (table_id displayName)).
  - rewrite Hid. apply String.eqb_refl.
Qed.

(** X6: a packaged reference whose pack and document exist.  An error
    thrown by the roll is passed on; a roll that is falsy or whose
    [length] is falsy (an empty array, [undefined]) is turned into an
    error naming the identifier and the pack; any other roll is
    returned. *)
Theorem packaged_roll_checked g displayName (tag namespace package type id : string)
    (pack : gmap string Doc) (t : Doc) :
  isWorldTable displayName = false ->
  isCompendiumTable displayName = true ->
  idParts displayName = [tag; namespace; package; type; id] ->
  packs g !! (namespace +:+ "." +:+ package) = Some pack ->
  pack !! id = Some t ->
  rollFromTableString g displayName
  = match rollTable t with
    | inl e => ([], inl e)
    | inr results =>
        if truthy results && truthy (prop results "length")
        then ([], inr results)
        else ([], inl (Error ("Couldn't roll table id " +:+ id +:+ " in pack "
                                +:+ namespace +:+ "." +:+ package)))
    end.
Proof.
  intros Hw Hc Hparts Hpack Hdoc.
  rewrite (rollFromTableString_compendium g _ Hw Hc).
  unfold getCompendiumTableResult. rewrite Hparts. simpl.
  unfold packId, part. simpl. rewrite Hpack, Hdoc.
  destruct (rollTable t) as [e|v]; [reflexivity|].
  destruct (truthy v) eqn:Hv; simpl; [|reflexivity].
  rewrite (get_prop_truthy _ _ Hv). simpl.
  now destruct (truthy (prop v "length")).
Qed.

(** X7: resolution reports at most once.  Either it makes no call to the
    host at all, or it makes the one notification of the table that was
    not found and returns [undefined]; a thrown error never comes with a
    notification. *)
Theorem rollFromTableString_reports g displayName :
  fst (rollFromTableString g displayName) = []
  \/ rollFromTableString g displayName
     = ([NotificationError ("Can't find a table that matches " +:+ displayName)],
        inr VUndefined).
Proof.
  unfold rollFromTableString.
  destruct (isWorldTable displayName); simpl.
  - unfold getRollTableResult.
    destruct (List.find _ (tables g)); [left | right]; reflexivity.
  - destruct (isCompendiumTable displayName); simpl; left;
      [apply getCompendiumTableResult_silent | reflexivity].
Qed.

End ResolutionCases.

Lemma local_first_match_witness :
  rollFromTableString (host := Fixture.host) Fixture.game Fixture.blankRef
  = ([], inr (VArr [])).
Proof.
  apply (local_first_match (host := Fixture.host) Fixture.game Fixture.blankRef
           [Fixture.names] [] Fixture.blank);
    [reflexivity | reflexivity | | reflexivity].
  repeat constructor. vm_compute. discriminate.
Defined.

Lemma packaged_roll_checked_witness :
  rollFromTableString (host := Fixture.host) Fixture.game Fixture.packRef
  = ([], inr (VArr [VStr "Ironfist"])).
Proof.
  apply (packaged_roll_checked (host := Fixture.host) Fixture.game Fixture.packRef
           "Compendium" "monks-enhanced-journal" "person-names" "RollTable"
           "AQBywLCajYDmBTay" Fixture.person_names
           (Fixture.mkTable "AQBywLCajYDmBTay" ["Ironfist"]));
    reflexivity.
Defined.

(** ** More on mining *)

Section MiningCases.

Context {host : Host}.
Implicit Types (g : Game) (tokenData : TokenData).

Lemma bind_returned {A B} (a : A) (f : A -> M B) :
  bind (([], inr a) : M A) f = f a.
Proof. exact (bind_ret_l a f). Qed.

Lemma get_prop_silent (v : value) (k : string) : fst (get_prop v k) = [].
Proof. unfold get_prop. now destruct (nullish v). Qed.

Lemma truthy_not_nullish (v : value) : truthy v = true -> nullish v = false.
Proof. now destruct v. Qed.

Lemma truthy_prop_not_nullish (v : value) (k : string) :
  truthy (prop v k) = true -> nullish v = false.
Proof. now destruct v. Qed.

(** The biography that is read: the flat field when it is truthy, else
    the nested one when it is truthy, else nothing. *)
Lemma readBiography_cases (sys : value) :
  nullish sys = false ->
  let flat := prop sys "biography" in
  let nested := read_path sys ["details"; "biography"; "value"] in
  readBiography sys
  = ([], inr (if truthy flat then (flat, Some "data.biography")
              else if truthy nested
                   then (nested, Some "system.details.biography.value")
                   else (VUndefined, None))).
Proof.
  intros Hsys flat nested. unfold readBiography.
  rewrite (get_prop_defined _ _ Hsys), bind_ret_l. fold flat.
  destruct (truthy flat); [reflexivity|].
  rewrite (get_prop_defined _ _ Hsys), bind_ret_l.
  subst nested. simpl. rewrite Hsys.
  set (details := prop sys "details").
  destruct (truthy details) eqn:Hd; simpl.
  - rewrite (truthy_not_nullish _ Hd), (get_prop_truthy _ _ Hd), bind_ret_l.
    set (biography := prop details "biography").
    destruct (truthy biography) eqn:Hb; simpl.
    + rewrite (truthy_not_nullish _ Hb), (get_prop_truthy _ _ Hb), bind_ret_l.
      now destruct (truthy (prop biography "value")).
    + destruct (nullish biography) eqn:Hnb; [reflexivity|].
      now destruct biography.
  - destruct (nullish details) eqn:Hnd; [reflexivity|].
    now destruct details.
Qed.

Lemma readBiography_silent (sys : value) : fst (readBiography sys) = [].
Proof.
  destruct (nullish sys) eqn:Hsys.
  - unfold readBiography, get_prop. now rewrite Hsys.
  - now rewrite (readBiography_cases _ Hsys).
Qed.

(** X8: mining makes no call to the host: no notification, no warning,
    no assignment and no update, whether it returns or throws. *)
Theorem mineForTableStrings_silent g tokenData :
  fst (mineForTableStrings g tokenData) = [].
Proof.
  unfold mineForTableStrings.
  destruct (resolveActorId tokenData) as [log [e|id]] eqn:Hid;
    rewrite (resolveActorId_silent _ _ _ Hid); [reflexivity|].
  unfold bind at 1.
  destruct (negb (truthy (actorLink tokenData)) && truthy id); [|reflexivity].
  unfold get_prop at 1.
  destruct (nullish (actors_get g id)); [reflexivity|]. rewrite bind_ret_l.
  pose proof (readBiography_silent (prop (actors_get g id) "system")) as Hread.
  destruct (readBiography _) as [l [e|found]]; simpl in Hread; subst l; reflexivity.
Qed.

(** X9: the actor id is worked out before the link is looked at.  A token
    with an empty [actorId] and no [document] makes mining throw a
    [TypeError], linked or not, and the [createToken] handler with it,
    before any call to the host. *)
Theorem no_actor_id_no_document g tokenData :
  truthy (actorId tokenData) = false ->
  nullish (document tokenData) = true ->
  exists msg,
    mineForTableStrings g tokenData = ([], inl (TypeError msg))
    /\ createToken g tokenData = ([], inl (TypeError msg)).
Proof.
  intros Hid Hdoc.
  assert (mineForTableStrings g tokenData
          = ([], inl (TypeError "Cannot read properties of undefined (reading 'id')")))
    as Hmine.
  { unfold mineForTableStrings, resolveActorId, get_prop. now rewrite Hid, Hdoc. }
  eexists. split; [exact Hmine|]. unfold createToken. now rewrite Hmine.
Qed.


(** X11: an actor that is in the registry but carries no system data: the
    biography is read off [undefined], so mining throws a [TypeError] and
    the [createToken] handler ends with it before any call to the
    host. *)
Theorem actor_without_system g tokenData (id : value) :
  truthy (actorLink tokenData) = false ->
  resolveActorId tokenData = ([], inr id) ->
  truthy id = true ->
  nullish (actors_get g id) = false ->
  nullish (prop (actors_get g id) "system") = true ->
  exists msg,
    mineForTableStrings g tokenData = ([], inl (TypeError msg))
    /\ createToken g tokenData = ([], inl (TypeError msg)).
Proof.
  intros Hlink Hid Htruthy Hactor Hsys.
  assert (mineForTableStrings g tokenData
          = ([], inl (TypeError "Cannot read properties of undefined (reading 'biography')")))
    as Hmine.
  { unfold mineForTableStrings. rewrite Hid, bind_returned, Hlink, Htruthy. simpl.
    rewrite (get_prop_defined _ _ Hactor), bind_ret_l.
    unfold readBiography, get_prop. now rewrite Hsys. }
  eexists. split; [exact Hmine|]. unfold createToken. now rewrite Hmine.
Qed.

End MiningCases.

Lemma no_actor_id_no_document_witness :
  exists msg,
    mineForTableStrings (host := Fixture.host) Fixture.game
      (Fixture.token Fixture.nameRef VNull true)
    = ([], inl (TypeError msg))
    /\ createToken (host := Fixture.host) Fixture.game
         (Fixture.token Fixture.nameRef VNull true)
       = ([], inl (TypeError msg)).
Proof.
  apply (no_actor_id_no_document (host := Fixture.host) Fixture.game
           (Fixture.token Fixture.nameRef VNull true));
    reflexivity.
Defined.


Lemma actor_without_system_witness :
  exists msg,
    mineForTableStrings (host := Fixture.host) Stage.game
      (Fixture.token "Goblin" (VStr "hollow") false)
    = ([], inl (TypeError msg))
    /\ createToken (host := Fixture.host) Stage.game
         (Fixture.token "Goblin" (VStr "hollow") false)
       = ([], inl (TypeError msg)).
Proof.
  apply (actor_without_system (host := Fixture.host) Stage.game
           (Fixture.token "Goblin" (VStr "hollow") false) (VStr "hollow"));
    reflexivity.
Defined.

(** ** More on rolling, writing back and the hook *)

Section PipelineCases.

Context {host : Host}.
Implicit Types (g : Game) (tokenDocument : TokenData) (toRoll : Mined).

Lemma present_some (s : string) : s <> "" -> present (Some s) = true.
Proof.
  intros Hs. unfold present. simpl.
  now destruct (String.eqb_spec s "").
Qed.

(** X12: when resolving the name reference throws, the bio reference is
    not resolved at all: one warning with the module's prefix and the
    error's message is logged and [undefined] is returned, whatever the
    bio reference is. *)
Theorem name_failure_skips_bio g toRoll (n : string) (l : list event) (e : exn) :
  nameTableStr toRoll = Some n -> n <> "" ->
  rollFromTableString g n = (l, inl e) ->
  getNewRolledValues g toRoll
  = (l ++ [ConsoleWarn ("[All Goblins Have Names]: " +:+ message e)], inr None).
Proof.
  intros Hn Hne Hroll. unfold getNewRolledValues.
  rewrite Hn, (present_some _ Hne), Hroll. reflexivity.
Qed.

(** X14: when both references resolve, the record holds the recorded
    field path, the name and the bio; the name is resolved first, then
    the bio, and a reference that resolved to [undefined] after a
    notification still yields its field. *)
Theorem both_resolved g toRoll (n b : string) (v1 v2 : value) (l1 l2 : list event) :
  nameTableStr toRoll = Some n -> n <> "" ->
  bioTableStr toRoll = Some b -> b <> "" ->
  rollFromTableString g n = (l1, inr v1) ->
  rollFromTableString g b = (l2, inr v2) ->
  getNewRolledValues g toRoll
  = (l1 ++ l2, inr (Some (mkRolled (bioDataPath toRoll) (Some v1) (Some v2)))).
Proof.
  intros Hn Hne Hb Hbe Hr1 Hr2. unfold getNewRolledValues.
  rewrite Hn, Hb, (present_some _ Hne), (present_some _ Hbe), Hr1, Hr2.
  simpl. now rewrite !app_nil_r.
Qed.


End PipelineCases.

Lemma name_failure_skips_bio_witness :
  getNewRolledValues (host := Fixture.host) Fixture.game
    (mkMined (Some Fixture.shortRef) (Some "data.biography") (Some Fixture.nameRef))
  = ([ConsoleWarn ("[All Goblins Have Names]: "
                     +:+ message (format_error Fixture.shortRef))],
     inr None).
Proof.
  apply (name_failure_skips_bio (host := Fixture.host) Fixture.game
           (mkMined (Some Fixture.shortRef) (Some "data.biography") (Some Fixture.nameRef))
           Fixture.shortRef [] (format_error Fixture.shortRef));
    [reflexivity | discriminate | reflexivity].
Defined.

Lemma getNewRolledValues_bio_throws_witness :
  getNewRolledValues (host := Fixture.host) Fixture.bare
    (mkMined (Some Fixture.nameRef) (Some "system.details.biography.value")
       (Some Fixture.packRef))
  = ([ConsoleWarn "[All Goblins Have Names]: Couldn't find a compendium with id monks-enhanced-journal.person-names"],
     inr None).
Proof.
  apply (getNewRolledValues_bio_throws (host := Fixture.host) Fixture.bare
           (mkMined (Some Fixture.nameRef) (Some "system.details.biography.value")
              (Some Fixture.packRef))
           Fixture.nameRef Fixture.packRef (VArr [VStr "Grix"]) [] []
           (Error "Couldn't find a compendium with id monks-enhanced-journal.person-names"));
    try reflexivity; discriminate.
Defined.

Lemma both_resolved_witness :
  getNewRolledValues (host := Fixture.host) Fixture.game
    (mkMined (Some Fixture.lostRef) (Some "data.biography") (Some Fixture.packRef))
  = ([NotificationError "Can't find a table that matches @UUID[RollTable.NOWHERE]{Lost}"],
     inr (Some (mkRolled (Some "data.biography") (Some VUndefined)
                  (Some (VArr [VStr "Ironfist"]))))).
Proof.
  apply (both_resolved (host := Fixture.host) Fixture.game
           (mkMined (Some Fixture.lostRef) (Some "data.biography") (Some Fixture.packRef))
           Fixture.lostRef Fixture.packRef VUndefined (VArr [VStr "Ironfist"])
           [NotificationError "Can't find a table that matches @UUID[RollTable.NOWHERE]{Lost}"]
           []);
    try reflexivity; discriminate.
Defined.


(** ** The hook from end to end *)

Section Hook.

Context {host : Host}.
Implicit Types (g : Game) (tokenDocument : TokenData).

Lemma bind_inl_eq {A B} (m : M A) (f : A -> M B) (l : list event) (e : exn) :
  m = (l, inl e) -> bind m f = (l, inl e).
Proof. now intros ->. Qed.

Lemma bind_inr_eq {A B} (m : M A) (f : A -> M B) (l l' : list event) (a : A)
    (r : outcome B) :
  m = (l, inr a) -> f a = (l', r) -> bind m f = (l ++ l', r).
Proof. intros -> Hf. unfold bind. now rewrite Hf. Qed.

Lemma mine_throws_TypeError g tokenDocument (log : list event) (e : exn) :
  mineForTableStrings g tokenDocument = (log, inl e) -> exists msg, e = TypeError msg.
Proof.
  unfold mineForTableStrings, resolveActorId.
  destruct (truthy (actorId tokenDocument)).
  - rewrite bind_ret_l.
    destruct (negb _ && _); [|discriminate].
    unfold get_prop at 1. destruct (nullish (actors_get g _)).
    + intros [= _ <-]. eauto.
    + rewrite bind_ret_l.
      destruct (nullish (prop (actors_get g (actorId tokenDocument)) "system")) eqn:Hsys.
      * unfold readBiography, get_prop. rewrite Hsys. intros [= _ <-]. eauto.
      * rewrite (readBiography_cases _ Hsys). rewrite bind_returned. discriminate.
  - unfold get_prop at 1. destruct (nullish (document tokenDocument)).
    + intros [= _ <-]. eauto.
    + rewrite bind_ret_l.
      destruct (negb _ && _); [|discriminate].
      unfold get_prop at 1. destruct (nullish (actors_get g _)).
      * intros [= _ <-]. eauto.
      * rewrite bind_ret_l.
        destruct (nullish (prop (actors_get g (prop (document tokenDocument) "id")) "system"))
          eqn:Hsys.
        -- unfold readBiography, get_prop. rewrite Hsys. intros [= _ <-]. eauto.
        -- rewrite (readBiography_cases _ Hsys). rewrite bind_returned. discriminate.
Qed.

Lemma saveRolledValues_throws_TypeError g tokenDocument (result : option Rolled)
    (log : list event) (e : exn) :
  saveRolledValues g tokenDocument result = (log, inl e) -> exists msg, e = TypeError msg.
Proof.
  destruct result as [r|]; [|intros [= _ <-]; eauto].
  unfold saveRolledValues, actor_update, result_prop, get_prop.
  unfold bind, ret, emit, throw. simpl.
  destruct (nullish (actor tokenDocument)),
    (truthy (field (rolled_bio r))), (truthy (syncActorName g)),
    (truthy (field (rolled_name r)));
    simpl; intros [= _ <-] || discriminate; eauto.
Qed.

(** X16: no error of resolution leaves the hook.  Whatever the
    [createToken] handler throws is a [TypeError] raised by reading a
    property of [undefined] or [null]; the format, pack, document and roll
    errors, and anything thrown by the roll primitive, are caught on the
    way. *)
Theorem createToken_throws_only_TypeError g tokenDocument (log : list event) (e : exn) :
  createToken g tokenDocument = (log, inl e) -> exists msg, e = TypeError msg.
Proof.
  unfold createToken.
  destruct (mineForTableStrings g tokenDocument) as [l [e'|toRoll]] eqn:Hmine.
  - intros [= _ <-]. exact (mine_throws_TypeError _ _ _ _ Hmine).
  - unfold bind at 1.
    destruct (negb _ && negb _); [discriminate|].
    destruct (getNewRolledValues_catches g toRoll) as (l1 & result & Hroll).
    rewrite Hroll.
    destruct (saveRolledValues g tokenDocument result) as [l2 [e'|[]]] eqn:Hsave;
      unfold bind, emit; simpl; rewrite Hsave; simpl.
    + intros [= _ <-]. exact (saveRolledValues_throws_TypeError _ _ _ _ _ Hsave).
    + discriminate.
Qed.






End Hook.





(** ** The reroll of the selection *)

Section Reroll.

Context {host : Host}.
Implicit Types (g : Game) (controlled : list Placeable).

Lemma bind_assoc {A B C} (m : M A) (f : A -> M B) (k : B -> M C) :
  bind (bind m f) k = bind m (fun a => bind (f a) k).
Proof.
  destruct m as [l [e|a]]; [reflexivity|]. simpl.
  destruct (f a) as [l1 [e|b]]; [reflexivity|]. simpl.
  destruct (k b) as [l2 r]. now rewrite app_assoc.
Qed.

Lemma log_bind {A B} (m : M A) (f : A -> M B) :
  fst (bind m f)
  = fst m ++ match snd m with inl _ => [] | inr a => fst (f a) end.
Proof.
  destruct m as [l [e|a]]; simpl; [now rewrite app_nil_r|].
  now destruct (f a).
Qed.

Lemma log_try_catch {A} (m : M A) (h : exn -> M A) :
  fst (try_catch m h)
  = fst m ++ match snd m with inl e => fst (h e) | inr _ => [] end.
Proof.
  destruct m as [l [e|a]]; simpl; [|now rewrite app_nil_r].
  now destruct (h e).
Qed.

Lemma bind_ext {A B} (m : M A) (f f' : A -> M B) :
  (forall a, f a = f' a) -> bind m f = bind m f'.
Proof. intros Hf. destruct m as [l [e|a]]; simpl; [reflexivity | now rewrite Hf]. Qed.

Lemma reroll_app g (before after : list Placeable) :
  rerollSelectedTokens g (before ++ after)
  = (rerollSelectedTokens g before ;;; rerollSelectedTokens g after).
Proof.
  induction before as [|token before IH].
  - change ([] ++ after) with after. cbn [rerollSelectedTokens].
    now rewrite bind_ret_l.
  - change ((token :: before) ++ after) with (token :: (before ++ after)).
    cbn [rerollSelectedTokens].
    rewrite bind_assoc. apply bind_ext. intros toRoll.
    rewrite bind_assoc. apply bind_ext. intros result.
    rewrite bind_assoc. apply bind_ext. intros _.
    exact IH.
Qed.

Lemma no_blanks_roll g (s : string) :
  existsb blanks (fst (rollFromTableString g s)) = false.
Proof.
  unfold rollFromTableString.
  destruct (isWorldTable s); simpl.
  - unfold getRollTableResult. now destruct (List.find _ (tables g)).
  - destruct (isCompendiumTable s); simpl; [|reflexivity].
    now rewrite getCompendiumTableResult_silent.
Qed.

Lemma no_blanks_rolled g (toRoll : Mined) :
  existsb blanks (fst (getNewRolledValues g toRoll)) = false.
Proof.
  unfold getNewRolledValues. rewrite log_try_catch, existsb_app.
  apply orb_false_iff. split.
  - rewrite log_bind, existsb_app. apply orb_false_iff. split.
    + destruct (nameTableStr toRoll) as [n|]; [|reflexivity].
      destruct (present (Some n)); [|reflexivity].
      rewrite log_bind, existsb_app, no_blanks_roll. simpl.
      now destruct (snd (rollFromTableString g n)).
    + match goal with |- context [snd ?m] => destruct (snd m) as [e|r] end;
        [reflexivity|].
      rewrite log_bind, existsb_app. apply orb_false_iff. split.
      * destruct (bioTableStr toRoll) as [b|]; [|reflexivity].
        destruct (present (Some b)); [|reflexivity].
        rewrite log_bind, existsb_app, no_blanks_roll. simpl.
        now destruct (snd (rollFromTableString g b)).
      * match goal with |- context [snd ?m] => now destruct (snd m) end.
  - match goal with |- context [snd ?m] => now destruct (snd m) end.
Qed.

Lemma no_blanks_save g (tokenDocument : TokenData) (result : option Rolled) :
  existsb blanks (fst (saveRolledValues g tokenDocument result)) = false.
Proof.
  destruct result as [r|]; [|reflexivity].
  unfold saveRolledValues, actor_update, result_prop, get_prop.
  unfold bind, ret, emit, throw. simpl.
  now destruct (nullish (actor tokenDocument)),
    (truthy (field (rolled_bio r))), (truthy (syncActorName g)),
    (truthy (field (rolled_name r))).
Qed.

(** X21: the reroll does not mine.  For a selection of tokens whose
    prototype token data carry neither a [nameTableStr] nor a
    [bioTableStr] property, whatever their names and biographies hold, it
    rolls nothing and makes exactly one call per token, in order: the
    update of the token's name with [undefined]. *)
Theorem reroll_without_references g controlled :
  Forall (fun token =>
            exists o, prototype token = Some o
                      /\ o !! "nameTableStr" = None
                      /\ o !! "bioTableStr" = None) controlled ->
  rerollSelectedTokens g controlled
  = (map (fun _ => TokenUpdate [("name", VUndefined)]) controlled, inr tt).
Proof.
  induction 1 as [|token controlled (o & Hproto & Hname & Hbio) _ IH];
    [reflexivity|].
  simpl. rewrite Hproto, bind_ret_l.
  unfold getNewRolledValues, destructure. cbn [nameTableStr bioTableStr bioDataPath].
  rewrite Hname, Hbio, IH.
  unfold saveRolledValues, actor_update, result_prop, get_prop.
  unfold try_catch, bind, ret, emit, throw. simpl.
  now destruct (truthy (syncActorName g)).
Qed.

(** X22: the reroll stops at the first token whose resolution throws.
    After the tokens before it have been dealt with, the warning is
    logged, writing back the missing result throws a [TypeError], and the
    tokens after it are not looked at. *)
Theorem reroll_stops_at_failure g (before rest : list Placeable) (token : Placeable)
    (o : gmap string string) (n : string) (lb l : list event) (e : exn) :
  rerollSelectedTokens g before = (lb, inr tt) ->
  prototype token = Some o ->
  o !! "nameTableStr" = Some n -> n <> "" ->
  rollFromTableString g n = (l, inl e) ->
  rerollSelectedTokens g (before ++ token :: rest)
  = (lb ++ l ++ [ConsoleWarn ("[All Goblins Have Names]: " +:+ message e)],
     inl (TypeError "Cannot read properties of undefined (reading 'name')")).
Proof.
  intros Hbefore Hproto Hname Hne Hroll.
  rewrite reroll_app, Hbefore, bind_inr_eq
    with (l := lb) (a := tt)
         (l' := l ++ [ConsoleWarn ("[All Goblins Have Names]: " +:+ message e)])
         (r := inl (TypeError "Cannot read properties of undefined (reading 'name')"));
    [reflexivity | reflexivity |].
  simpl. rewrite Hproto, bind_ret_l.
  unfold getNewRolledValues, destructure. cbn [nameTableStr bioTableStr bioDataPath].
  rewrite Hname, (present_some _ Hne), Hroll.
  unfold saveRolledValues, result_prop, try_catch, bind, ret, emit, throw. simpl.
  now rewrite app_nil_r.
Qed.

(** X23: the reroll never assigns the placeholder name: no call it makes,
    on any selection and whatever happens, is the assignment of the
    token's name that the [createToken] hook starts with. *)
Theorem reroll_never_blanks g controlled :
  existsb blanks (fst (rerollSelectedTokens g controlled)) = false.
Proof.
  induction controlled as [|token controlled IH]; [reflexivity|].
  simpl. destruct (prototype token) as [o|]; [|reflexivity].
  rewrite bind_ret_l, log_bind, existsb_app, no_blanks_rolled. simpl.
  destruct (snd (getNewRolledValues g (destructure o))) as [e|result];
    [reflexivity|].
  rewrite log_bind, existsb_app, no_blanks_save. simpl.
  now destruct (snd (saveRolledValues g (placeable_document token) result)).
Qed.

End Reroll.

Lemma reroll_without_references_witness :
  rerollSelectedTokens (host := Fixture.host) Fixture.game [Stage.goblin; Stage.goblin]
  = ([TokenUpdate [("name", VUndefined)]; TokenUpdate [("name", VUndefined)]], inr tt).
Proof.
  apply (reroll_without_references (host := Fixture.host) Fixture.game
           [Stage.goblin; Stage.goblin]).
  repeat constructor; exists Stage.plainPrototype; repeat split.
Defined.

Lemma reroll_stops_at_failure_witness :
  rerollSelectedTokens (host := Fixture.host) Fixture.game
    [Stage.goblin; Stage.broken; Stage.goblin]
  = ([TokenUpdate [("name", VUndefined)];
      ConsoleWarn ("[All Goblins Have Names]: "
                     +:+ message (format_error Fixture.shortRef))],
     inl (TypeError "Cannot read properties of undefined (reading 'name')")).
Proof.
  apply (reroll_stops_at_failure (host := Fixture.host) Fixture.game
           [Stage.goblin] [Stage.goblin] Stage.broken Stage.brokenPrototype
           Fixture.shortRef [TokenUpdate [("name", VUndefined)]] []
           (format_error Fixture.shortRef));
    try reflexivity; discriminate.
Defined.

(** ** A reference in the biography alone *)

Section BiographyOnly.

Context {host : Host}.
Implicit Types (g : Game) (tokenDocument : TokenData).


End BiographyOnly.


Lemma createToken_throws_only_TypeError_witness :
  exists msg,
    TypeError "Cannot read properties of undefined (reading 'system')" = TypeError msg.
Proof.
  apply (createToken_throws_only_TypeError (host := Fixture.host) Fixture.game
           (Fixture.token Fixture.nameRef (VStr "gone") false) []).
  reflexivity.
Defined.
